(** * ShopUI: the cart slice ([src/app/cartSlice.ts])

    A shallow embedding of the Redux-toolkit slice that owns the shopping
    cart, and the proofs of its transition contract.

    Reading guide to the model.

    - [state.items] is a JavaScript object used as a dictionary from
      product id to line item; it is a [gmap Z CartItem].  Looking up a
      missing key gives [undefined], here [None]; every stored value is
      an object, hence truthy, so the test [if (state.items[k])] is the
      test "is [k] a key of the dictionary".
    - The reducers are written against an Immer draft: they mutate the
      draft and the slice returns the next state.  Here each reducer is
      a function from the state (and the payload) to the next state.
    - Reading a property of [undefined] raises a [TypeError] in
      JavaScript.  Member reads and writes through [state.items[k]] are
      therefore fallible primitives in the [Completion] monad, and the
      fact that the reducers never raise is a theorem, not a typing
      accident.
    - [id] and [quantity] are JavaScript numbers used as integers: a
      product identifier and a count that only ever sees [+= 1], [-= 1]
      and [<= 0].  They are carried as [Z].  A JavaScript number is a
      binary64 value, so the arithmetic on [quantity] is not that of
      [Z]: [js_add] and [js_sub] round the exact result to the nearest
      binary64 value, ties to even.  Up to 2^53 in magnitude this is
      exact; from there on a unit can be absorbed.  [price] is a number
      that the slice stores and never computes with; it is kept as a
      binary64 value. *)

From Stdlib Require Import ZArith String Lia.
From Stdlib.Floats Require Import PrimFloat.
From stdpp Require Import base option gmap strings fin_maps.

Local Open Scope Z_scope.

(** ** Data model *)

(** [interface CartItem] *)
Record CartItem : Type := mkCartItem {
  id : Z;
  title : string;
  image : string;
  price : float;
  quantity : Z;
}.

(** [interface CartState] *)
Record CartState : Type := mkCartState {
  items : gmap Z CartItem;
}.

(** [const initialState: CartState = { items: {} }] *)
Definition initialState : CartState := {| items := ∅ |}.

(** ** Completions: a reducer either returns the next state or throws *)

Inductive JsError : Type :=
| TypeError.

Inductive Completion (A : Type) : Type :=
| Normal (a : A)
| Throw (e : JsError).

Arguments Normal {A} a.
Arguments Throw {A} e.

#[global] Instance Completion_ret : MRet Completion := fun _ a => Normal a.

#[global] Instance Completion_bind : MBind Completion := fun _ _ k c =>
  match c with
  | Normal a => k a
  | Throw e => Throw e
  end.

(** ** Numbers

    The integers among the binary64 values are those of magnitude at
    most 2^53 and, above, the multiples of their unit in the last place
    (53 significant bits) below 2^1024.  Sums and differences are the
    exact result rounded to the nearest such value, ties to the one with
    an even significand.  A binary64 integer plus or minus one stays far
    below the overflow threshold, so no infinity arises here. *)

(** The unit in the last place of a value of magnitude above 2^53. *)
Definition ulp (z : Z) : Z := 2 ^ (Z.log2 (Z.abs z) - 52).

(** The multiple of [u] nearest to [n], the even multiple on a tie. *)
Definition nearest_even (n u : Z) : Z :=
  let lo := n / u in
  let r := n mod u in
  if 2 * r <? u then lo * u
  else if u <? 2 * r then (lo + 1) * u
  else if Z.even lo then lo * u
  else (lo + 1) * u.

(** Round to nearest, ties to even, with 53 significant bits. *)
Definition round64 (z : Z) : Z :=
  if Z.abs z <=? 2 ^ 53 then z
  else Z.sgn z * nearest_even (Z.abs z) (ulp z).

(** The integers that are binary64 values. *)
Definition is_double (z : Z) : bool :=
  (Z.abs z <? 2 ^ 1024)
  && ((Z.abs z <=? 2 ^ 53) || (Z.abs z mod ulp z =? 0)).

(** [a + b] and [a - b] on numbers. *)
Definition js_add (a b : Z) : Z := round64 (a + b).

Definition js_sub (a b : Z) : Z := round64 (a - b).

(** ** Object primitives used by the reducers *)

(** Truthiness of [state.items[k]]: [undefined] is falsy, an object is
    truthy. *)
Definition truthy (v : option CartItem) : bool :=
  match v with
  | Some _ => true
  | None => false
  end.

(** [state.items[k].quantity] as an r-value. *)
Definition read_quantity (state : CartState) (k : Z) : Completion Z :=
  match state.(items) !! k with
  | Some entry => Normal entry.(quantity)
  | None => Throw TypeError
  end.

(** The object [entry] with its [quantity] property overwritten. *)
Definition with_quantity (entry : CartItem) (q : Z) : CartItem :=
  {| id := entry.(id);
     title := entry.(title);
     image := entry.(image);
     price := entry.(price);
     quantity := q |}.

(** [state.items[k].quantity = q]. *)
Definition write_quantity (state : CartState) (k : Z) (q : Z)
  : Completion CartState :=
  match state.(items) !! k with
  | Some entry => Normal {| items := <[k := with_quantity entry q]> state.(items) |}
  | None => Throw TypeError
  end.

(** [state.items[k] = entry]. *)
Definition set_item (state : CartState) (k : Z) (entry : CartItem) : CartState :=
  {| items := <[k := entry]> state.(items) |}.

(** [delete state.items[k]]. *)
Definition delete_item (state : CartState) (k : Z) : CartState :=
  {| items := delete k state.(items) |}.

(** ** The three case reducers *)

(** [addToCart(state, action: PayloadAction<CartItem>)] *)
Definition addToCart (state : CartState) (item : CartItem) : Completion CartState :=
  if truthy (state.(items) !! item.(id)) then
    q ← read_quantity state item.(id);
    write_quantity state item.(id) (js_add q 1)
  else
    Normal (set_item state item.(id) (with_quantity item 1)).

(** [incrementQuantity(state, action: PayloadAction<number>)] *)
Definition incrementQuantity (state : CartState) (k : Z) : Completion CartState :=
  if truthy (state.(items) !! k) then
    q ← read_quantity state k;
    write_quantity state k (js_add q 1)
  else
    Normal state.

(** [decrementQuantity(state, action: PayloadAction<number>)] *)
Definition decrementQuantity (state : CartState) (k : Z) : Completion CartState :=
  if truthy (state.(items) !! k) then
    q ← read_quantity state k;
    state1 ← write_quantity state k (js_sub q 1);
    q1 ← read_quantity state1 k;
    if q1 <=? 0 then Normal (delete_item state1 k) else Normal state1
  else
    Normal state.

(** ** The slice reducer and runs of it *)

(** The actions created by [cartSlice.actions]. *)
Inductive Action : Type :=
| AddToCart (payload : CartItem)
| IncrementQuantity (payload : Z)
| DecrementQuantity (payload : Z).

(** [cartSlice.reducer]: dispatch on the action type. *)
Definition reducer (state : CartState) (action : Action) : Completion CartState :=
  match action with
  | AddToCart item => addToCart state item
  | IncrementQuantity k => incrementQuantity state k
  | DecrementQuantity k => decrementQuantity state k
  end.

(** The key of [state.items] an action operates on. *)
Definition operated_id (action : Action) : Z :=
  match action with
  | AddToCart item => item.(id)
  | IncrementQuantity k => k
  | DecrementQuantity k => k
  end.

(** Dispatching a finite sequence of actions, one after the other. *)
Fixpoint dispatch_all (state : CartState) (actions : list Action)
  : Completion CartState :=
  match actions with
  | [] => Normal state
  | action :: rest => state' ← reducer state action; dispatch_all state' rest
  end.

(** The same reducer applied [n] times. *)
Fixpoint repeat_dispatch (n : nat) (action : Action) (state : CartState)
  : Completion CartState :=
  match n with
  | O => Normal state
  | S n' => state' ← reducer state action; repeat_dispatch n' action state'
  end.

(** States reachable from [initialState] by dispatching actions. *)
Inductive reachable : CartState -> Prop :=
| reachable_init : reachable initialState
| reachable_step state action state' :
    reachable state ->
    reducer state action = Normal state' ->
    reachable state'.

(** ** The invariant of the data model *)

(** Every line item counts at least one unit. *)
Definition positive_quantities (state : CartState) : Prop :=
  forall k entry, state.(items) !! k = Some entry -> 1 <= entry.(quantity).

(** ** Sample data *)

(** [19.99] denotes the nearest binary64 value, as it does in JavaScript. *)
#[local] Set Warnings "-inexact-float".

Definition shirt : CartItem :=
  {| id := 1; title := "Shirt"; image := "u"; price := 19.99%float; quantity := 1 |}.

Definition mug : CartItem :=
  {| id := 7; title := "Mug"; image := "m"; price := 4.5%float; quantity := 1 |}.

(** A payload that no catalog should produce: negative price, negative
    quantity. *)
Definition refund : CartItem :=
  {| id := 3; title := "Refund"; image := "r"; price := (-5)%float; quantity := -2 |}.

(** A second payload for the mug, with other display data. *)
Definition refund_mug : CartItem :=
  {| id := 7; title := "Cup"; image := "c"; price := (-1)%float; quantity := 12 |}.

(** A state outside the data model: an entry held at quantity zero. *)
Definition stale : CartState :=
  {| items := {[ 7 := with_quantity mug 0 ]} |}.

(** A cart whose mug count has reached 2^53. *)
Definition saturated : CartState :=
  {| items := {[ 7 := with_quantity mug (2 ^ 53) ]} |}.

(** A cart whose mug count is 2^54, a binary64 value whose neighbours
    are 4 apart. *)
Definition huge : CartState :=
  {| items := {[ 7 := with_quantity mug (2 ^ 54) ]} |}.

(** A cart with three mugs and one shirt. *)
Definition basket : CartState :=
  {| items := {[ 7 := with_quantity mug 3; 1 := shirt ]} |}.

(** ** The slice seen one id at a time *)

(** What an action does to the slot [state.items[k]] of the id it
    operates on: [None] is "absent", [Some entry] is "present". *)
Definition entry_transition (action : Action) (slot : option CartItem)
  : option CartItem :=
  match action, slot with
  | AddToCart item, None => Some (with_quantity item 1)
  | AddToCart _, Some entry => Some (with_quantity entry (js_add entry.(quantity) 1))
  | IncrementQuantity _, None => None
  | IncrementQuantity _, Some entry =>
      Some (with_quantity entry (js_add entry.(quantity) 1))
  | DecrementQuantity _, None => None
  | DecrementQuantity _, Some entry =>
      if js_sub entry.(quantity) 1 <=? 0 then None
      else Some (with_quantity entry (js_sub entry.(quantity) 1))
  end.

(** A cart in which every entry is stored under its own [id] and counts
    at least one unit and at most 2^53, the count at which [+= 1] stops
    counting. *)
Definition well_formed (state : CartState) : Prop :=
  map_Forall (fun k entry => entry.(id) = k /\ 1 <= entry.(quantity) <= 2 ^ 53)
    state.(items).

(** The actions that raise the count of id [k]: an [addToCart] whose
    payload has that id, or an [incrementQuantity] of it. *)
Definition bumps (k : Z) (action : Action) : Prop :=
  match action with
  | AddToCart item => item.(id) = k
  | IncrementQuantity k' => k' = k
  | DecrementQuantity _ => False
  end.

(** Two dispatches in a row. *)
Definition dispatch_two (state : CartState) (first second : Action)
  : Completion CartState :=
  state' ← reducer state first; reducer state' second.

(** ** The component that drives the slice ([App])

    The screen keeps three pieces of local state ([useState]) and reads
    the cart from the store ([useSelector]).  A handler runs to
    completion before the next event, so each press is one transition of
    [AppState].  The store itself is configured outside this file: its
    [cart] field is the slice state and [dispatch] runs [cartSlice.reducer]
    on it. *)

(** [interface Product] *)
Module Product.

Record Rating : Type := mkRating {
  rate : float;
  count : Z;
}.

Record t : Type := mk {
  id : Z;
  title : string;
  image : string;
  price : float;
  category : string;
  rating : Rating;
  description : string;
}.

End Product.

Record AppState : Type := mkAppState {
  products : list Product.t;
  selectedProduct : option Product.t;
  modalVisible : bool;
  cart : CartState;
}.

(** The first render: [useState] defaults and the slice's [initialState]. *)
Definition initialApp : AppState :=
  {| products := []; selectedProduct := None; modalVisible := false;
     cart := initialState |}.

(** [setProducts(data)], the continuation of the catalog fetch. *)
Definition setProducts (app : AppState) (data : list Product.t) : AppState :=
  {| products := data; selectedProduct := app.(selectedProduct);
     modalVisible := app.(modalVisible); cart := app.(cart) |}.

(** [openModal(product)] *)
Definition openModal (app : AppState) (product : Product.t) : AppState :=
  {| products := app.(products); selectedProduct := Some product;
     modalVisible := true; cart := app.(cart) |}.

(** [closeModal()] *)
Definition closeModal (app : AppState) : AppState :=
  {| products := app.(products); selectedProduct := None;
     modalVisible := false; cart := app.(cart) |}.

(** [dispatch(action)]: the store runs the slice reducer on its [cart]. *)
Definition dispatch (app : AppState) (action : Action) : Completion AppState :=
  cart' ← reducer app.(cart) action;
  Normal {| products := app.(products); selectedProduct := app.(selectedProduct);
            modalVisible := app.(modalVisible); cart := cart' |}.

(** [{ ...product, quantity: 1 }] read at type [CartItem]: the fields of
    the product that [CartItem] declares, and the quantity. *)
Definition cartItem_of_product (product : Product.t) : CartItem :=
  {| id := product.(Product.id);
     title := product.(Product.title);
     image := product.(Product.image);
     price := product.(Product.price);
     quantity := 1 |}.

(** [addItemToCart(product)] *)
Definition addItemToCart (app : AppState) (product : Product.t)
  : Completion AppState :=
  let cartItem := cartItem_of_product product in
  app' ← dispatch app (AddToCart cartItem);
  Normal (closeModal app').

(** What the user (or the network) can do to the screen, read off the
    JSX: a control can be pressed only where it is rendered.
    - a row of the list ([data={products}]) opens the modal on its item;
    - the [-] and [+] buttons of a row exist only under
      [cart[item.id] &&];
    - the modal, with its two buttons, exists only under
      [selectedProduct &&] and is shown only when [modalVisible];
    - the fetch may deliver the catalog.
    The relation allows every press the screen allows (and presses on
    rows that an open modal would cover), so what holds for all its
    runs holds for all sessions. *)
Inductive ui_step : AppState -> AppState -> Prop :=
| press_row app item :
    item ∈ app.(products) ->
    ui_step app (openModal app item)
| press_minus app item app' :
    item ∈ app.(products) ->
    truthy (app.(cart).(items) !! item.(Product.id)) = true ->
    dispatch app (DecrementQuantity item.(Product.id)) = Normal app' ->
    ui_step app app'
| press_plus app item app' :
    item ∈ app.(products) ->
    truthy (app.(cart).(items) !! item.(Product.id)) = true ->
    dispatch app (IncrementQuantity item.(Product.id)) = Normal app' ->
    ui_step app app'
| press_add_to_cart app product app' :
    app.(selectedProduct) = Some product ->
    app.(modalVisible) = true ->
    addItemToCart app product = Normal app' ->
    ui_step app app'
| press_close app product :
    app.(selectedProduct) = Some product ->
    app.(modalVisible) = true ->
    ui_step app (closeModal app)
| catalog_fetched app data :
    ui_step app (setProducts app data).

(** The screens a session can show. *)
Inductive ui_reachable : AppState -> Prop :=
| ui_initial : ui_reachable initialApp
| ui_next app app' : ui_reachable app -> ui_step app app' -> ui_reachable app'.

(** Sample catalog. *)
Definition mug_product : Product.t :=
  {| Product.id := 7; Product.title := "Mug"; Product.image := "m";
     Product.price := 4.5%float; Product.category := "kitchen";
     Product.rating := {| Product.rate := 4.5%float; Product.count := 120 |};
     Product.description := "A mug" |}.

Definition mug_selected : AppState :=
  {| products := [mug_product]; selectedProduct := Some mug_product;
     modalVisible := true; cart := initialState |}.

Definition mug_bought : AppState :=
  {| products := [mug_product]; selectedProduct := None;
     modalVisible := false; cart := {| items := {[ 7 := mug ]} |} |}.

Example scenario_add_shirt :
  addToCart initialState shirt = Normal {| items := {[ 1 := shirt ]} |}.
Proof. reflexivity. Qed.

Example scenario_increment_shirt :
  dispatch_all initialState [AddToCart shirt; IncrementQuantity 1]
  = Normal {| items := {[ 1 := with_quantity shirt 2 ]} |}.
Proof. reflexivity. Qed.

Example scenario_back_to_empty :
  dispatch_all initialState
    [AddToCart shirt; IncrementQuantity 1; DecrementQuantity 1; DecrementQuantity 1]
  = Normal initialState.
Proof. reflexivity. Qed.

(** ** Arithmetic of numbers *)

(** Where binary64 departs from the integers: a unit added to 2^53 is
    absorbed, neighbours are 2 apart up to 2^54 and 4 apart from there. *)
Example binary64_absorption :
  js_add (2 ^ 53) 1 = 2 ^ 53
  /\ js_sub (2 ^ 53) 1 = 2 ^ 53 - 1
  /\ js_add (js_add (2 ^ 53 - 1) 1) 1 = 2 ^ 53
  /\ js_sub (2 ^ 53 + 2) 1 = 2 ^ 53
  /\ js_add (2 ^ 53 + 2) 1 = 2 ^ 53 + 4
  /\ js_sub (2 ^ 54) 1 = 2 ^ 54
  /\ is_double (2 ^ 53 + 1) = false
  /\ is_double (2 ^ 53 + 2) = true.
Proof. by vm_compute. Qed.

Lemma round64_exact z : Z.abs z <= 2 ^ 53 -> round64 z = z.
Proof. intros Hz. unfold round64. destruct (Z.leb_spec (Z.abs z) (2 ^ 53)); [done|lia]. Qed.

(** the binade of a large magnitude *)
Lemma binade n :
  2 ^ 53 < n ->
  exists k, 1 <= k /\ ulp n = 2 ^ k /\ Z.log2 n = 52 + k
            /\ 2 ^ 52 * 2 ^ k <= n < 2 ^ 53 * 2 ^ k.
Proof.
  intros Hn. exists (Z.log2 n - 52).
  assert (0 < n) as Hpos by lia.
  assert (53 <= Z.log2 n) as Hl.
  { apply Z.log2_le_pow2; lia. }
  destruct (Z.log2_spec n Hpos) as [Hlo Hhi].
  unfold ulp. rewrite Z.abs_eq by lia.
  split; [lia|]. split; [done|]. split; [lia|].
  rewrite <- !Z.pow_add_r by lia.
  replace (52 + (Z.log2 n - 52)) with (Z.log2 n) by lia.
  replace (53 + (Z.log2 n - 52)) with (Z.succ (Z.log2 n)) by lia.
  lia.
Qed.

Lemma nearest_even_bounds n u :
  0 < u -> 0 <= n ->
  n / u * u <= nearest_even n u <= (n / u + 1) * u.
Proof.
  intros Hu Hn. unfold nearest_even.
  repeat match goal with |- context [if ?b then _ else _] => destruct b end; nia.
Qed.

Lemma round64_pos z : 0 < z -> 0 < round64 z.
Proof.
  intros Hz. unfold round64.
  destruct (Z.leb_spec (Z.abs z) (2 ^ 53)) as [|Hbig]; [done|].
  rewrite Z.abs_eq in * by lia. rewrite Z.sgn_pos by done.
  destruct (binade z Hbig) as (k & Hk & -> & _ & Hlo & Hhi).
  assert (0 < 2 ^ k) as Hu by (apply Z.pow_pos_nonneg; lia).
  pose proof (nearest_even_bounds z (2 ^ k) Hu ltac:(lia)) as [Hb _].
  assert (2 ^ 52 <= z / 2 ^ k) by (apply Z.div_le_lower_bound; lia).
  nia.
Qed.

Lemma round64_opp z : round64 (- z) = - round64 z.
Proof.
  unfold round64, ulp. rewrite Z.abs_opp, Z.sgn_opp.
  destruct (Z.abs z <=? 2 ^ 53); lia.
Qed.

Lemma round64_nonpos z : z <= 0 -> round64 z <= 0.
Proof.
  intros Hz. destruct (Z.eq_dec z 0) as [->|Hne]; [done|].
  pose proof (round64_pos (- z) ltac:(lia)) as H.
  rewrite round64_opp in H. lia.
Qed.

Lemma is_double_spec z :
  is_double z = true <->
  Z.abs z < 2 ^ 1024 /\ (Z.abs z <= 2 ^ 53 \/ Z.abs z mod ulp z = 0).
Proof.
  unfold is_double.
  rewrite andb_true_iff, orb_true_iff, Z.ltb_lt, Z.leb_le, Z.eqb_eq. done.
Qed.

Lemma is_double_opp z : is_double (- z) = is_double z.
Proof. unfold is_double, ulp. by rewrite !Z.abs_opp. Qed.

Lemma pow2_multiple k k' n :
  0 <= k <= k' -> n mod 2 ^ k' = 0 -> n mod 2 ^ k = 0.
Proof.
  intros Hk Hn.
  apply Z.mod_divide in Hn; [|apply Z.pow_nonzero; lia].
  apply Z.mod_divide; [apply Z.pow_nonzero; lia|].
  etrans; [|exact Hn].
  exists (2 ^ (k' - k)). rewrite <- Z.pow_add_r by lia. f_equal. lia.
Qed.

(** A large binary64 integer is a multiple of its unit in the last place. *)
Lemma double_multiple n :
  is_double n = true -> 2 ^ 53 < n ->
  exists k, 1 <= k /\ Z.log2 n = 52 + k /\ n mod 2 ^ k = 0 /\ n < 2 ^ 1024.
Proof.
  intros [Hmax [Hsmall|Hgrid]]%is_double_spec Hn; rewrite Z.abs_eq in * by lia; [lia|].
  destruct (binade n Hn) as (k & Hk & Hulp & Hlog & _).
  exists k. by rewrite <- Hulp.
Qed.

(** Rounding [n + 1] for a binary64 [n]: the sum is absorbed, or goes to
    the even neighbour two units up. *)
Lemma nearest_even_succ n :
  is_double n = true -> 2 ^ 53 < n + 1 ->
  let r := nearest_even (n + 1) (ulp (n + 1)) in
  n <= r /\ is_double r = true.
Proof.
  intros Hn Hbig.
  destruct (Z.eq_dec n (2 ^ 53)) as [->|Hne]; [by vm_compute|].
  destruct (double_multiple n Hn ltac:(lia)) as (k & Hk & Hlog & Hmod & Hmax).
  assert (0 < 2 ^ k) as Hu by (apply Z.pow_pos_nonneg; lia).
  assert (2 ^ k = 2 * 2 ^ (k - 1)) as Heven.
  { rewrite <- Z.pow_succ_r by lia. f_equal. lia. }
  assert (0 < 2 ^ (k - 1)) as Hu' by (apply Z.pow_pos_nonneg; lia).
  apply Z.mod_divide in Hmod as [c Hc]; [|lia].
  (* n + 1 stays in the binade of n *)
  assert (Z.log2 (n + 1) = 52 + k) as Hlog'.
  { apply Z.log2_unique; [lia|].
    destruct (Z.log2_spec n ltac:(lia)) as [Hlo Hhi]. rewrite Hlog in Hlo, Hhi.
    split; [lia|].
    replace (Z.succ (52 + k)) with (k + 53) in * by lia.
    rewrite Z.pow_add_r in * by lia. nia. }
  unfold ulp. rewrite Z.abs_eq by lia. rewrite Hlog'.
  replace (52 + k - 52) with k by lia.
  assert ((n + 1) / 2 ^ k = c) as Hdiv.
  { symmetry. apply (Z.div_unique_pos _ _ _ 1); lia. }
  assert ((n + 1) mod 2 ^ k = 1) as Hrem.
  { symmetry. apply (Z.mod_unique_pos _ _ c); lia. }
  cbv zeta. unfold nearest_even. rewrite Hdiv, Hrem.
  destruct (Z.ltb_spec (2 * 1) (2 ^ k)); [split; [lia|by rewrite <- Hc]|].
  destruct (Z.ltb_spec (2 ^ k) (2 * 1)); [lia|].
  destruct (Z.even c) eqn:Hpar; [split; [lia|by rewrite <- Hc]|].
  (* the tie goes up: k = 1, c odd *)
  assert (2 ^ (k - 1) = 1) as Hone by lia.
  assert (k = 1) as -> .
  { destruct (Z.eq_dec k 1); [done|].
    assert (2 ^ 1 <= 2 ^ (k - 1)) by (apply Z.pow_le_mono_r; lia). lia. }
  change (2 ^ 1) with 2 in *.
  split; [lia|].
  apply is_double_spec.
  rewrite <- Z.negb_odd in Hpar. apply negb_false_iff in Hpar.
  apply Z.odd_spec in Hpar as [d ->].
  assert (n < 2 ^ 54).
  { destruct (Z.log2_spec n ltac:(lia)) as [_ Hhi]. rewrite Hlog in Hhi. exact Hhi. }
  rewrite Z.abs_eq by lia.
  split; [assert (2 ^ 54 < 2 ^ 1024) by (apply Z.pow_lt_mono_r; lia); lia|].
  right. unfold ulp. rewrite Z.abs_eq by lia.
  assert (53 <= Z.log2 ((2 * d + 1 + 1) * 2)) by (apply Z.log2_le_pow2; lia).
  assert (Z.log2 ((2 * d + 1 + 1) * 2) < 55) by (apply Z.log2_lt_pow2; lia).
  assert (Z.log2 ((2 * d + 1 + 1) * 2) - 52 = 1 \/ Z.log2 ((2 * d + 1 + 1) * 2) - 52 = 2)
    as [-> | ->] by lia.
  - apply Z.mod_divide; [done|]. exists (2 * d + 2). change (2 ^ 1) with 2. lia.
  - apply Z.mod_divide; [done|]. exists (d + 1). change (2 ^ 2) with 4. lia.
Qed.

(** Rounding [n - 1] for a binary64 [n]: the difference is absorbed, or
    goes to the even neighbour two units down. *)
Lemma nearest_even_pred n :
  is_double n = true -> 2 ^ 53 < n - 1 ->
  let r := nearest_even (n - 1) (ulp (n - 1)) in
  r <= n /\ is_double r = true.
Proof.
  intros Hn Hbig.
  destruct (double_multiple n Hn ltac:(lia)) as (k' & Hk' & Hlog' & Hmod' & Hmax).
  destruct (binade (n - 1) Hbig) as (k & Hk & Hulp & Hlog & Hlo & Hhi).
  assert (k <= k') as Hkk.
  { assert (Z.log2 (n - 1) <= Z.log2 n) by (apply Z.log2_le_mono; lia). lia. }
  pose proof (pow2_multiple k k' n ltac:(lia) Hmod') as Hmod.
  assert (0 < 2 ^ k) as Hu by (apply Z.pow_pos_nonneg; lia).
  assert (2 ^ k = 2 * 2 ^ (k - 1)) as Heven.
  { rewrite <- Z.pow_succ_r by lia. f_equal. lia. }
  assert (0 < 2 ^ (k - 1)) as Hu' by (apply Z.pow_pos_nonneg; lia).
  apply Z.mod_divide in Hmod as [c Hc]; [|lia].
  assert ((n - 1) / 2 ^ k = c - 1) as Hdiv.
  { symmetry. apply (Z.div_unique_pos _ _ _ (2 ^ k - 1)); lia. }
  assert ((n - 1) mod 2 ^ k = 2 ^ k - 1) as Hrem.
  { symmetry. apply (Z.mod_unique_pos _ _ (c - 1)); lia. }
  cbv zeta. rewrite Hulp. unfold nearest_even. rewrite Hdiv, Hrem.
  destruct (Z.ltb_spec (2 * (2 ^ k - 1)) (2 ^ k)); [lia|].
  replace ((c - 1 + 1) * 2 ^ k) with n by lia.
  destruct (Z.ltb_spec (2 ^ k) (2 * (2 ^ k - 1))); [split; [lia|done]|].
  destruct (Z.even (c - 1)) eqn:Hpar; [|split; [lia|done]].
  (* the tie goes down: k = 1, c - 1 even *)
  assert (2 ^ (k - 1) = 1) as Hone by lia.
  split; [lia|].
  apply Z.even_spec in Hpar as [d Hd].
  apply is_double_spec.
  assert (n - 1 < 2 ^ 54) as Hlt.
  { destruct (Z.log2_spec (n - 1) ltac:(lia)) as [_ Hup]. rewrite Hlog in Hup.
    assert (k = 1) as ->; [|exact Hup].
    destruct (Z.eq_dec k 1); [done|].
    assert (2 ^ 1 <= 2 ^ (k - 1)) by (apply Z.pow_le_mono_r; lia). lia. }
  assert ((c - 1) * 2 ^ k = 4 * d) as -> by lia.
  assert (2 ^ 53 <= 4 * d) by lia.
  rewrite Z.abs_eq by lia.
  split; [assert (2 ^ 54 < 2 ^ 1024) by (apply Z.pow_lt_mono_r; lia); lia|].
  right. unfold ulp. rewrite Z.abs_eq by lia.
  assert (Z.log2 (4 * d) = 53) as ->.
  { apply Z.log2_unique; lia. }
  apply Z.mod_divide; [done|]. exists (2 * d). change (2 ^ (53 - 52)) with 2. lia.
Qed.

(** [+= 1] on a binary64 integer never gives less, and gives a binary64
    integer. *)
Lemma js_add_one_double q :
  is_double q = true ->
  q <= js_add q 1 /\ is_double (js_add q 1) = true.
Proof.
  intros Hq. unfold js_add, round64.
  destruct (Z.leb_spec (Z.abs (q + 1)) (2 ^ 53)) as [Hsmall|Hbig].
  - split; [lia|]. apply is_double_spec.
    split; [assert (2 ^ 53 < 2 ^ 1024) by (apply Z.pow_lt_mono_r; lia); lia|by left].
  - destruct (Z.lt_trichotomy (q + 1) 0) as [Hneg|[Hzero|Hpos]]; [| lia |].
    + rewrite Z.sgn_neg by done.
      replace (Z.abs (q + 1)) with (- q - 1) in * by lia.
      replace (ulp (q + 1)) with (ulp (- q - 1))
        by (unfold ulp; do 3 f_equal; lia).
      destruct (nearest_even_pred (- q) ltac:(by rewrite is_double_opp) ltac:(lia))
        as [Hle Hdbl].
      split; [lia|].
      rewrite <- is_double_opp.
      by replace (- (-1 * nearest_even (- q - 1) (ulp (- q - 1))))
        with (nearest_even (- q - 1) (ulp (- q - 1))) by lia.
    + rewrite Z.sgn_pos by done.
      replace (Z.abs (q + 1)) with (q + 1) in * by lia.
      destruct (nearest_even_succ q Hq ltac:(lia)) as [Hle Hdbl].
      rewrite Z.mul_1_l. done.
Qed.

Lemma js_add_one_exact q : - 2 ^ 53 <= q < 2 ^ 53 -> js_add q 1 = q + 1.
Proof. intros Hq. apply round64_exact. lia. Qed.

Lemma js_sub_one_exact q : - 2 ^ 53 < q <= 2 ^ 53 -> js_sub q 1 = q - 1.
Proof. intros Hq. apply round64_exact. lia. Qed.

(** Counting up stops at 2^53. *)
Lemma js_add_one_capped q :
  - 2 ^ 53 <= q <= 2 ^ 53 -> js_add q 1 = Z.min (q + 1) (2 ^ 53).
Proof.
  intros Hq. destruct (Z.eq_dec q (2 ^ 53)) as [->|Hne]; [by vm_compute|].
  rewrite js_add_one_exact by lia. lia.
Qed.

Lemma js_sub_one_floored q :
  - 2 ^ 53 <= q <= 2 ^ 53 -> js_sub q 1 = Z.max (q - 1) (- 2 ^ 53).
Proof.
  intros Hq. destruct (Z.eq_dec q (- 2 ^ 53)) as [->|Hne]; [by vm_compute|].
  rewrite js_sub_one_exact by lia. lia.
Qed.

(** ** Equations of the case reducers

    Each reducer, unfolded once along the branch the lookup selects.  All
    later results are derived from these equations. *)

Section Equations.

Variable state : CartState.

Lemma addToCart_present item entry :
  state.(items) !! item.(id) = Some entry ->
  addToCart state item
  = Normal {| items := <[item.(id) := with_quantity entry (js_add entry.(quantity) 1)]>
                         state.(items) |}.
Proof.
  intros Hget. unfold addToCart, read_quantity, write_quantity.
  rewrite Hget. reflexivity.
Qed.

Lemma addToCart_absent item :
  state.(items) !! item.(id) = None ->
  addToCart state item
  = Normal {| items := <[item.(id) := with_quantity item 1]> state.(items) |}.
Proof.
  intros Hget. unfold addToCart. rewrite Hget. reflexivity.
Qed.

Lemma incrementQuantity_present k entry :
  state.(items) !! k = Some entry ->
  incrementQuantity state k
  = Normal {| items := <[k := with_quantity entry (js_add entry.(quantity) 1)]>
                         state.(items) |}.
Proof.
  intros Hget. unfold incrementQuantity, read_quantity, write_quantity.
  rewrite Hget. reflexivity.
Qed.

Lemma incrementQuantity_absent k :
  state.(items) !! k = None ->
  incrementQuantity state k = Normal state.
Proof.
  intros Hget. unfold incrementQuantity. rewrite Hget. reflexivity.
Qed.

Lemma decrementQuantity_present k entry :
  state.(items) !! k = Some entry ->
  decrementQuantity state k
  = Normal (if js_sub entry.(quantity) 1 <=? 0
            then {| items := delete k state.(items) |}
            else {| items := <[k := with_quantity entry (js_sub entry.(quantity) 1)]>
                               state.(items) |}).
Proof.
  intros Hget. unfold decrementQuantity, read_quantity, write_quantity.
  rewrite Hget. cbn. rewrite lookup_insert_eq. cbn.
  destruct (js_sub entry.(quantity) 1 <=? 0); [|reflexivity].
  unfold delete_item. cbn. by rewrite delete_insert_eq.
Qed.

Lemma decrementQuantity_absent k :
  state.(items) !! k = None ->
  decrementQuantity state k = Normal state.
Proof.
  intros Hget. unfold decrementQuantity. rewrite Hget. reflexivity.
Qed.

End Equations.

(** The reducer never throws: whatever the lookup says, the branch taken
    only touches [state.items[k]] where it is defined. *)
Lemma reducer_total state action : exists state', reducer state action = Normal state'.
Proof.
  destruct action as [item|k|k]; cbn.
  - destruct (state.(items) !! item.(id)) as [entry|] eqn:Hget.
    + erewrite addToCart_present by eassumption. eauto.
    + rewrite addToCart_absent by assumption. eauto.
  - destruct (state.(items) !! k) as [entry|] eqn:Hget.
    + erewrite incrementQuantity_present by eassumption. eauto.
    + rewrite incrementQuantity_absent by assumption. eauto.
  - destruct (state.(items) !! k) as [entry|] eqn:Hget.
    + erewrite decrementQuantity_present by eassumption. eauto.
    + rewrite decrementQuantity_absent by assumption. eauto.
Qed.

Lemma dispatch_all_total actions :
  forall state, exists state', dispatch_all state actions = Normal state'.
Proof.
  induction actions as [|action rest IH]; intros state; cbn.
  - eauto.
  - destruct (reducer_total state action) as [state1 ->]. cbn. apply IH.
Qed.

(** [reachable] is exactly "the result of some finite run". *)
Lemma dispatch_all_reachable actions :
  forall state state',
    reachable state ->
    dispatch_all state actions = Normal state' ->
    reachable state'.
Proof.
  induction actions as [|action rest IH]; intros state state' Hreach Hrun; cbn in Hrun.
  - congruence.
  - destruct (reducer state action) as [state1|e] eqn:Hstep; cbn in Hrun; [|discriminate].
    eapply IH; [|exact Hrun]. econstructor; eassumption.
Qed.

Lemma dispatch_all_snoc actions action :
  forall state state1 state',
    dispatch_all state actions = Normal state1 ->
    reducer state1 action = Normal state' ->
    dispatch_all state (actions ++ [action]) = Normal state'.
Proof.
  induction actions as [|first rest IH]; intros state state1 state' Hrun Hstep; cbn in *.
  - inversion Hrun; subst. rewrite Hstep. reflexivity.
  - destruct (reducer state first) as [state2|e]; cbn in *; [|discriminate].
    eapply IH; eassumption.
Qed.

Lemma reachable_dispatch_all state :
  reachable state ->
  exists actions, dispatch_all initialState actions = Normal state.
Proof.
  induction 1 as [|state action state' _ [actions IH] Hstep].
  - exists []. reflexivity.
  - exists (actions ++ [action]). eapply dispatch_all_snoc; eassumption.
Qed.

(** ** Quantities stay positive *)

Lemma reducer_positive_quantities state action state' :
  positive_quantities state ->
  reducer state action = Normal state' ->
  positive_quantities state'.
Proof.
  intros Hinv Hstep k' entry'.
  destruct action as [item|k|k]; cbn in Hstep.
  - destruct (state.(items) !! item.(id)) as [entry|] eqn:Hget.
    + erewrite addToCart_present in Hstep by eassumption.
      injection Hstep as <-. cbn.
      rewrite lookup_insert. case_decide; [|by apply Hinv].
      intros [= <-]. cbn. specialize (Hinv _ _ Hget).
      pose proof (round64_pos (entry.(quantity) + 1)). unfold js_add. lia.
    + rewrite addToCart_absent in Hstep by assumption.
      injection Hstep as <-. cbn.
      rewrite lookup_insert. case_decide; [|by apply Hinv].
      intros [= <-]. cbn. lia.
  - destruct (state.(items) !! k) as [entry|] eqn:Hget.
    + erewrite incrementQuantity_present in Hstep by eassumption.
      injection Hstep as <-. cbn.
      rewrite lookup_insert. case_decide; [|by apply Hinv].
      intros [= <-]. cbn. specialize (Hinv _ _ Hget).
      pose proof (round64_pos (entry.(quantity) + 1)). unfold js_add. lia.
    + rewrite incrementQuantity_absent in Hstep by assumption.
      injection Hstep as <-. by apply Hinv.
  - destruct (state.(items) !! k) as [entry|] eqn:Hget.
    + erewrite decrementQuantity_present in Hstep by eassumption.
      injection Hstep as <-.
      destruct (Z.leb_spec (js_sub entry.(quantity) 1) 0) as [Hle|Hgt]; cbn.
      * rewrite lookup_delete. case_decide; [discriminate|by apply Hinv].
      * rewrite lookup_insert. case_decide; [|by apply Hinv].
        intros [= <-]. cbn. lia.
    + rewrite decrementQuantity_absent in Hstep by assumption.
      injection Hstep as <-. by apply Hinv.
Qed.

(** C1. Starting from [initialState], every state reached by a finite
    sequence of [addToCart], [incrementQuantity] and [decrementQuantity]
    holds only entries whose [quantity] is at least 1: no reachable
    state keeps an entry at zero or below. *)
Theorem reachable_quantity_positive state :
  reachable state ->
  forall k entry, state.(items) !! k = Some entry -> 1 <= entry.(quantity).
Proof.
  induction 1 as [|state action state' _ IH Hstep].
  - intros k entry. cbn. rewrite lookup_empty. discriminate.
  - exact (reducer_positive_quantities _ _ _ IH Hstep).
Qed.

Lemma reachable_quantity_positive_witness :
  1 <= (with_quantity mug 2).(quantity).
Proof.
  apply (reachable_quantity_positive
           {| items := {[ 7 := with_quantity mug 2 ]} |}) with (k := 7).
  - apply (reachable_step {| items := {[ 7 := mug ]} |} (IncrementQuantity 7)).
    + apply (reachable_step initialState (AddToCart mug)).
      * exact reachable_init.
      * reflexivity.
    + reflexivity.
  - reflexivity.
Defined.

(** ** [addToCart] *)

(** C2. When [item.id] is not a key of [items], [addToCart] returns a
    state with exactly one more entry: the new one is stored under
    [item.id], has quantity 1 and the payload's title, image and price,
    and every other key is as before.  The payload's own [quantity]
    plays no part: two payloads that differ only there give the same
    state. *)
Theorem addToCart_absent_inserts state item :
  state.(items) !! item.(id) = None ->
  exists state',
    addToCart state item = Normal state'
    /\ state'.(items) !! item.(id)
       = Some {| id := item.(id); title := item.(title); image := item.(image);
                 price := item.(price); quantity := 1 |}
    /\ (forall k, k <> item.(id) -> state'.(items) !! k = state.(items) !! k)
    /\ size state'.(items) = S (size state.(items))
    /\ (forall q, addToCart state (with_quantity item q) = Normal state').
Proof.
  intros Hget. eexists. split; [by apply addToCart_absent|]. cbn.
  split; [by rewrite lookup_insert_eq|].
  split; [by intros k Hk; rewrite lookup_insert_ne|].
  split; [by apply map_size_insert_None|].
  intros q. by rewrite addToCart_absent.
Qed.

Lemma addToCart_absent_inserts_witness :
  exists state',
    addToCart basket refund = Normal state'
    /\ state'.(items) !! 3
       = Some {| id := 3; title := "Refund"; image := "r";
                 price := (-5)%float; quantity := 1 |}
    /\ (forall k, k <> 3 -> state'.(items) !! k = basket.(items) !! k)
    /\ size state'.(items) = S (size basket.(items))
    /\ (forall q, addToCart basket (with_quantity refund q) = Normal state').
Proof.
  apply (addToCart_absent_inserts basket refund). reflexivity.
Defined.

(** C3 does not hold where the count has reached 2^53: the cart
    [saturated] holds the mug at quantity 2^53, and adding the mug again
    leaves the cart as it is, so the quantity is not [2^53 + 1]. *)
Lemma addToCart_present_absorbed :
  saturated.(items) !! refund_mug.(id) = Some (with_quantity mug (2 ^ 53))
  /\ addToCart saturated refund_mug = Normal saturated
  /\ ~ (exists state',
          addToCart saturated refund_mug = Normal state'
          /\ state'.(items) !! refund_mug.(id)
             = Some (with_quantity mug (2 ^ 53 + 1))).
Proof.
  assert (addToCart saturated refund_mug = Normal saturated) as Hadd
    by (vm_compute; reflexivity).
  split; [reflexivity|]. split; [exact Hadd|].
  intros (state' & Hrun & Hget). rewrite Hadd in Hrun.
  injection Hrun as <-. vm_compute in Hget. discriminate.
Qed.

(** C3 (amended). When [items[item.id]] already exists with quantity
    [q], [addToCart] leaves the entry in place with the id, title, image
    and price it already had, whatever the payload carries, and with
    quantity [q + 1] provided [-2^53 <= q < 2^53]; outside that range
    the stored quantity is the binary64 sum, in which the unit can be
    absorbed. *)
Theorem addToCart_present_increments_below_2_53 state item entry :
  state.(items) !! item.(id) = Some entry ->
  exists state' entry',
    addToCart state item = Normal state'
    /\ state'.(items) !! item.(id) = Some entry'
    /\ entry'.(id) = entry.(id)
    /\ entry'.(title) = entry.(title)
    /\ entry'.(image) = entry.(image)
    /\ entry'.(price) = entry.(price)
    /\ (- 2 ^ 53 <= entry.(quantity) < 2 ^ 53 ->
        entry'.(quantity) = entry.(quantity) + 1).
Proof.
  intros Hget. do 2 eexists. split; [by eapply addToCart_present|].
  cbn. rewrite lookup_insert_eq. split; [reflexivity|]. cbn.
  do 4 (split; [reflexivity|]). apply js_add_one_exact.
Qed.

Lemma addToCart_present_increments_below_2_53_witness :
  exists state' entry',
    addToCart basket refund_mug = Normal state'
    /\ state'.(items) !! 7 = Some entry'
    /\ entry'.(id) = 7
    /\ entry'.(title) = "Mug"
    /\ entry'.(image) = "m"
    /\ entry'.(price) = 4.5%float
    /\ entry'.(quantity) = 3 + 1.
Proof.
  destruct (addToCart_present_increments_below_2_53 basket refund_mug
              (with_quantity mug 3) eq_refl)
    as (state' & entry' & Hrun & Hget & Hid & Htitle & Himage & Hprice & Hq).
  exists state', entry'. do 6 (split; [assumption|]).
  apply Hq. cbn. lia.
Defined.

(** ** [incrementQuantity] *)

(** C4 does not hold where the count has reached 2^53: incrementing
    the mug of [saturated] leaves the cart as it is. *)
Lemma incrementQuantity_absorbed :
  saturated.(items) !! 7 = Some (with_quantity mug (2 ^ 53))
  /\ incrementQuantity saturated 7 = Normal saturated
  /\ ~ (exists state',
          incrementQuantity saturated 7 = Normal state'
          /\ state'.(items) !! 7 = Some (with_quantity mug (2 ^ 53 + 1))).
Proof.
  assert (incrementQuantity saturated 7 = Normal saturated) as Hinc
    by (vm_compute; reflexivity).
  split; [reflexivity|]. split; [exact Hinc|].
  intros (state' & Hrun & Hget). rewrite Hinc in Hrun.
  injection Hrun as <-. vm_compute in Hget. discriminate.
Qed.

(** C4 (amended). If [items[k]] exists with quantity [q],
    [incrementQuantity] keeps the entry under [k] with its id, title,
    image and price, and with quantity [q + 1] provided
    [-2^53 <= q < 2^53] (outside that range the stored quantity is the
    binary64 sum); if [items[k]] does not exist, the state comes back as
    it was and no entry is created. *)
Theorem incrementQuantity_spec_below_2_53 state k :
  (forall entry,
      state.(items) !! k = Some entry ->
      exists state' entry',
        incrementQuantity state k = Normal state'
        /\ state'.(items) !! k = Some entry'
        /\ entry'.(id) = entry.(id)
        /\ entry'.(title) = entry.(title)
        /\ entry'.(image) = entry.(image)
        /\ entry'.(price) = entry.(price)
        /\ (- 2 ^ 53 <= entry.(quantity) < 2 ^ 53 ->
            entry'.(quantity) = entry.(quantity) + 1))
  /\ (state.(items) !! k = None ->
      incrementQuantity state k = Normal state).
Proof.
  split.
  - intros entry Hget. do 2 eexists.
    split; [by eapply incrementQuantity_present|].
    cbn. rewrite lookup_insert_eq. split; [reflexivity|]. cbn.
    do 4 (split; [reflexivity|]). apply js_add_one_exact.
  - apply incrementQuantity_absent.
Qed.

Lemma incrementQuantity_spec_below_2_53_witness :
  (exists state' entry',
      incrementQuantity basket 7 = Normal state'
      /\ state'.(items) !! 7 = Some entry'
      /\ entry'.(id) = 7
      /\ entry'.(title) = "Mug"
      /\ entry'.(image) = "m"
      /\ entry'.(price) = 4.5%float
      /\ entry'.(quantity) = 3 + 1)
  /\ incrementQuantity basket 2 = Normal basket.
Proof.
  split.
  - destruct (proj1 (incrementQuantity_spec_below_2_53 basket 7)
                (with_quantity mug 3) eq_refl)
      as (state' & entry' & Hrun & Hget & Hid & Htitle & Himage & Hprice & Hq).
    exists state', entry'. do 6 (split; [assumption|]).
    apply Hq. cbn. lia.
  - apply (proj2 (incrementQuantity_spec_below_2_53 basket 2)). reflexivity.
Defined.

(** ** [decrementQuantity] *)




Lemma repeat_decrement_removes n :
  forall state k entry,
    state.(items) !! k = Some entry ->
    entry.(quantity) = Z.of_nat (S n) ->
    entry.(quantity) <= 2 ^ 53 ->
    exists state',
      repeat_dispatch (S n) (DecrementQuantity k) state = Normal state'
      /\ state'.(items) !! k = None.
Proof.
  induction n as [|n IH]; intros state k entry Hget Hq Hmax.
  - cbn. rewrite (decrementQuantity_present _ _ _ Hget).
    rewrite js_sub_one_exact by lia.
    destruct (Z.leb_spec (entry.(quantity) - 1) 0); [|lia].
    cbn. eexists. split; [reflexivity|]. cbn. apply lookup_delete_eq.
  - change (repeat_dispatch (S (S n)) (DecrementQuantity k) state)
      with (state1 ← decrementQuantity state k;
            repeat_dispatch (S n) (DecrementQuantity k) state1).
    rewrite (decrementQuantity_present _ _ _ Hget).
    rewrite js_sub_one_exact by lia.
    destruct (Z.leb_spec (entry.(quantity) - 1) 0); [lia|].
    cbn -[repeat_dispatch].
    eapply IH; cbn; [apply lookup_insert_eq| |]; cbn; lia.
Qed.

Lemma repeat_decrement_absorbed n :
  repeat_dispatch n (DecrementQuantity 7) huge = Normal huge.
Proof.
  induction n as [|n IH]; [reflexivity|].
  change (repeat_dispatch (S n) (DecrementQuantity 7) huge)
    with (state1 ← decrementQuantity huge 7;
          repeat_dispatch n (DecrementQuantity 7) state1).
  replace (decrementQuantity huge 7) with (Normal huge) by (vm_compute; reflexivity).
  exact IH.
Qed.

(** C6 does not hold at either end of the count.  An entry held at
    quantity 0 ([stale]) is still there after zero decrements; and the
    mug of [huge], at quantity 2^54, is still there after 2^54
    decrements, each of which is absorbed. *)
Lemma decrementQuantity_q_times_keeps :
  (stale.(items) !! 7 = Some (with_quantity mug 0)
   /\ ~ (exists state',
           repeat_dispatch (Z.to_nat 0) (DecrementQuantity 7) stale = Normal state'
           /\ state'.(items) !! 7 = None))
  /\ (huge.(items) !! 7 = Some (with_quantity mug (2 ^ 54))
      /\ ~ (exists state',
              repeat_dispatch (Z.to_nat (2 ^ 54)) (DecrementQuantity 7) huge
              = Normal state'
              /\ state'.(items) !! 7 = None)).
Proof.
  split; (split; [reflexivity|]); intros (state' & Hrun & Hget).
  - injection Hrun as <-. vm_compute in Hget. discriminate.
  - rewrite repeat_decrement_absorbed in Hrun.
    injection Hrun as <-. vm_compute in Hget. discriminate.
Qed.

(** C6 (amended). From a state whose entry for [k] has quantity [q]
    with [1 <= q <= 2^53], dispatching [decrementQuantity(k)] exactly
    [q] times succeeds and ends in a state where [k] is absent from
    [items]. *)
Theorem decrementQuantity_q_times_removes_in_range state k entry :
  state.(items) !! k = Some entry ->
  1 <= entry.(quantity) <= 2 ^ 53 ->
  exists state',
    repeat_dispatch (Z.to_nat entry.(quantity)) (DecrementQuantity k) state
    = Normal state'
    /\ state'.(items) !! k = None.
Proof.
  intros Hget Hrange.
  destruct (Z.to_nat entry.(quantity)) as [|n] eqn:Hn; [lia|].
  eapply repeat_decrement_removes; [eassumption|lia|lia].
Qed.

Lemma decrementQuantity_q_times_removes_in_range_witness :
  exists state',
    repeat_dispatch (Z.to_nat 3) (DecrementQuantity 7) basket = Normal state'
    /\ state'.(items) !! 7 = None.
Proof.
  apply (decrementQuantity_q_times_removes_in_range basket 7 (with_quantity mug 3)).
  - reflexivity.
  - cbn. lia.
Defined.

(** Outside the data model the count [q] is not a number of steps: an
    entry held at quantity 0 is still there after zero decrements. *)
Example stale_entry_needs_one_decrement :
  repeat_dispatch (Z.to_nat 0) (DecrementQuantity 7) stale = Normal stale
  /\ decrementQuantity stale 7 = Normal initialState.
Proof. split; reflexivity. Qed.

(** C7. From the empty cart, [addToCart] twice with payloads of id 7
    followed by [decrementQuantity(7)] twice ends in a state whose
    [items] is empty. *)
Theorem add_add_decrement_decrement_empty (first second : CartItem) :
  first.(id) = 7 ->
  second.(id) = 7 ->
  exists state',
    dispatch_all initialState
      [AddToCart first; AddToCart second; DecrementQuantity 7; DecrementQuantity 7]
    = Normal state'
    /\ state'.(items) = ∅.
Proof.
  destruct first as [i1 t1 m1 p1 q1], second as [i2 t2 m2 p2 q2]; cbn.
  intros -> ->. eexists. split; reflexivity.
Qed.

Lemma add_add_decrement_decrement_empty_witness :
  exists state',
    dispatch_all initialState
      [AddToCart mug; AddToCart (with_quantity mug 5);
       DecrementQuantity 7; DecrementQuantity 7]
    = Normal state'
    /\ state'.(items) = ∅.
Proof.
  apply (add_add_decrement_decrement_empty mug (with_quantity mug 5)); reflexivity.
Defined.

(** ** Totality *)

(** C8. The three reducers are total and never throw: for every state
    and every payload, malformed ones included (a negative price, a
    negative quantity, an id that is not in the cart), each of them
    returns a next state. *)
Theorem reducers_never_throw state :
  (forall item, exists state', addToCart state item = Normal state')
  /\ (forall k, exists state', incrementQuantity state k = Normal state')
  /\ (forall k, exists state', decrementQuantity state k = Normal state').
Proof.
  split; [|split].
  - intros item. exact (reducer_total state (AddToCart item)).
  - intros k. exact (reducer_total state (IncrementQuantity k)).
  - intros k. exact (reducer_total state (DecrementQuantity k)).
Qed.

Example negative_price_is_stored :
  addToCart initialState refund
  = Normal {| items := {[ 3 := with_quantity refund 1 ]} |}.
Proof. reflexivity. Qed.

(** ** Frame *)

Lemma reducer_step_frame state action state' k :
  reducer state action = Normal state' ->
  k <> operated_id action ->
  state'.(items) !! k = state.(items) !! k.
Proof.
  intros Hstep Hk.
  destruct action as [item|k0|k0]; cbn in Hstep, Hk.
  - destruct (state.(items) !! item.(id)) as [entry|] eqn:Hget.
    + erewrite addToCart_present in Hstep by eassumption.
      injection Hstep as <-. cbn. by rewrite lookup_insert_ne.
    + rewrite addToCart_absent in Hstep by assumption.
      injection Hstep as <-. cbn. by rewrite lookup_insert_ne.
  - destruct (state.(items) !! k0) as [entry|] eqn:Hget.
    + erewrite incrementQuantity_present in Hstep by eassumption.
      injection Hstep as <-. cbn. by rewrite lookup_insert_ne.
    + rewrite incrementQuantity_absent in Hstep by assumption.
      by injection Hstep as <-.
  - destruct (state.(items) !! k0) as [entry|] eqn:Hget.
    + erewrite decrementQuantity_present in Hstep by eassumption.
      injection Hstep as <-.
      destruct (js_sub entry.(quantity) 1 <=? 0); cbn.
      * by rewrite lookup_delete_ne.
      * by rewrite lookup_insert_ne.
    + rewrite decrementQuantity_absent in Hstep by assumption.
      by injection Hstep as <-.
Qed.

(** C9. An action only touches the key it operates on ([item.id] for
    [addToCart], the payload for the other two): the reducer returns a
    state in which, under every other key [k], the lookup in [items],
    present or absent, is what it was before. *)
Theorem reducer_frame state action :
  exists state',
    reducer state action = Normal state'
    /\ forall k, k <> operated_id action ->
                 state'.(items) !! k = state.(items) !! k.
Proof.
  destruct (reducer_total state action) as [state' Hstep].
  exists state'. split; [assumption|].
  intros k. by apply reducer_step_frame.
Qed.

Lemma reducer_frame_witness :
  exists state',
    reducer basket (DecrementQuantity 1) = Normal state'
    /\ state'.(items) !! 7 = basket.(items) !! 7
    /\ state'.(items) !! 2 = basket.(items) !! 2.
Proof.
  destruct (reducer_frame basket (DecrementQuantity 1)) as (state' & Hstep & Hframe).
  exists state'. split; [assumption|].
  split; apply Hframe; cbn; lia.
Defined.

(** ** [addToCart] on a present id is [incrementQuantity] *)

(** C10. When [items[k]] exists, [addToCart] with any payload whose
    [id] is [k] returns exactly what [incrementQuantity(k)] returns; the
    payload's title, image, price and quantity have no effect. *)
Theorem addToCart_present_is_incrementQuantity state k item :
  is_Some (state.(items) !! k) ->
  item.(id) = k ->
  addToCart state item = incrementQuantity state k.
Proof.
  intros [entry Hget] <-.
  rewrite (addToCart_present _ _ _ Hget).
  by rewrite (incrementQuantity_present _ _ _ Hget).
Qed.

Lemma addToCart_present_is_incrementQuantity_witness :
  addToCart basket
    {| id := 7; title := "Cup"; image := "c"; price := 99%float; quantity := 40 |}
  = incrementQuantity basket 7.
Proof.
  apply (addToCart_present_is_incrementQuantity basket 7
           {| id := 7; title := "Cup"; image := "c"; price := 99%float; quantity := 40 |}).
  - exists (with_quantity mug 3). reflexivity.
  - reflexivity.
Defined.

(** * Further properties of the slice *)

(** ** Each action is a transition of one slot *)

Lemma with_quantity_same entry : with_quantity entry entry.(quantity) = entry.
Proof. by destruct entry. Qed.

Lemma with_quantity_twice entry q q' :
  with_quantity (with_quantity entry q) q' = with_quantity entry q'.
Proof. reflexivity. Qed.

Lemma reducer_partial_alter state action :
  reducer state action
  = Normal {| items := partial_alter (entry_transition action) (operated_id action)
                         state.(items) |}.
Proof.
  destruct action as [item|k|k]; cbn;
    [destruct (state.(items) !! item.(id)) as [entry|] eqn:Hget
    |destruct (state.(items) !! k) as [entry|] eqn:Hget
    |destruct (state.(items) !! k) as [entry|] eqn:Hget].
  - rewrite (addToCart_present _ _ _ Hget). do 2 f_equal.
    apply map_eq. intros j. rewrite lookup_partial_alter, lookup_insert.
    case_decide; [by rewrite Hget|done].
  - rewrite (addToCart_absent _ _ Hget). do 2 f_equal.
    apply map_eq. intros j. rewrite lookup_partial_alter, lookup_insert.
    case_decide; [by rewrite Hget|done].
  - rewrite (incrementQuantity_present _ _ _ Hget). do 2 f_equal.
    apply map_eq. intros j. rewrite lookup_partial_alter, lookup_insert.
    case_decide; [by rewrite Hget|done].
  - rewrite (incrementQuantity_absent _ _ Hget). destruct state as [m]. do 2 f_equal.
    cbn in *. symmetry. apply partial_alter_id. by rewrite Hget.
  - rewrite (decrementQuantity_present _ _ _ Hget).
    destruct (js_sub entry.(quantity) 1 <=? 0) eqn:Hq; do 2 f_equal;
      apply map_eq; intros j; rewrite lookup_partial_alter.
    + rewrite lookup_delete. case_decide; [by rewrite Hget; cbn; rewrite Hq|done].
    + rewrite lookup_insert. case_decide; [by rewrite Hget; cbn; rewrite Hq|done].
  - rewrite (decrementQuantity_absent _ _ Hget). destruct state as [m]. do 2 f_equal.
    cbn in *. symmetry. apply partial_alter_id. by rewrite Hget.
Qed.

Lemma reducer_lookup state action state' k :
  reducer state action = Normal state' ->
  state'.(items) !! k
  = if decide (operated_id action = k)
    then entry_transition action (state.(items) !! operated_id action)
    else state.(items) !! k.
Proof.
  rewrite reducer_partial_alter. intros [= <-]. cbn. apply lookup_partial_alter.
Qed.

(** ** Well-formed carts are exactly the reachable ones *)

Lemma entry_transition_well_formed action slot entry :
  (forall old, slot = Some old ->
     old.(id) = operated_id action /\ 1 <= old.(quantity) <= 2 ^ 53) ->
  entry_transition action slot = Some entry ->
  entry.(id) = operated_id action /\ 1 <= entry.(quantity) <= 2 ^ 53.
Proof.
  intros Hold.
  destruct action as [item|k|k], slot as [old|]; cbn; try discriminate.
  - intros [= <-]. cbn. destruct (Hold old eq_refl).
    rewrite js_add_one_capped by lia. split; [done|lia].
  - intros [= <-]. cbn. split; [done|lia].
  - intros [= <-]. cbn. destruct (Hold old eq_refl).
    rewrite js_add_one_capped by lia. split; [done|lia].
  - destruct (Hold old eq_refl). rewrite js_sub_one_exact by lia.
    destruct (Z.leb_spec (old.(quantity) - 1) 0); [discriminate|].
    intros [= <-]. cbn. split; [done|lia].
Qed.

Lemma reducer_well_formed state action state' :
  well_formed state ->
  reducer state action = Normal state' ->
  well_formed state'.
Proof.
  intros Hwf Hstep k entry Hget.
  rewrite (reducer_lookup _ _ _ _ Hstep) in Hget.
  case_decide as Hk; [|by apply Hwf].
  subst k. eapply entry_transition_well_formed; [|exact Hget].
  intros old Hold. by apply Hwf.
Qed.

Lemma reachable_well_formed state : reachable state -> well_formed state.
Proof.
  induction 1 as [|state action state' _ IH Hstep].
  - apply map_Forall_empty.
  - by eapply reducer_well_formed.
Qed.

Lemma repeat_dispatch_reachable n action :
  forall state state',
    reachable state ->
    repeat_dispatch n action state = Normal state' ->
    reachable state'.
Proof.
  induction n as [|n IH]; intros state state' Hreach Hrun; cbn in Hrun.
  - congruence.
  - destruct (reducer state action) as [state1|e] eqn:Hstep; cbn in Hrun; [|discriminate].
    eapply IH; [|exact Hrun]. econstructor; eassumption.
Qed.

Lemma repeat_increment_present n :
  forall state k entry,
    state.(items) !! k = Some entry ->
    - 2 ^ 53 <= entry.(quantity) <= 2 ^ 53 ->
    repeat_dispatch n (IncrementQuantity k) state
    = Normal {| items := <[k := with_quantity entry
                                  (Z.min (entry.(quantity) + Z.of_nat n) (2 ^ 53))]>
                           state.(items) |}.
Proof.
  induction n as [|n IH]; intros state k entry Hget Hq.
  - cbn. rewrite Z.add_0_r, Z.min_l, with_quantity_same, insert_id by (done || lia).
    by destruct state.
  - change (repeat_dispatch (S n) (IncrementQuantity k) state)
      with (state1 ← incrementQuantity state k;
            repeat_dispatch n (IncrementQuantity k) state1).
    rewrite (incrementQuantity_present _ _ _ Hget). cbn -[repeat_dispatch].
    rewrite js_add_one_capped by done.
    erewrite IH; [|cbn; apply lookup_insert_eq|cbn; lia].
    cbn -[Z.of_nat Z.pow]. rewrite insert_insert_eq, with_quantity_twice.
    do 4 f_equal. lia.
Qed.

Lemma repeat_increment_absent n :
  forall state k,
    state.(items) !! k = None ->
    repeat_dispatch n (IncrementQuantity k) state = Normal state.
Proof.
  induction n as [|n IH]; intros state k Hget; cbn; [done|].
  rewrite (incrementQuantity_absent _ _ Hget). cbn. by apply IH.
Qed.

(** X1. In every reachable state an entry sits under its own id: the
    key of [items] and the [id] stored in the entry agree. *)
Theorem reachable_id_is_key state k entry :
  reachable state ->
  state.(items) !! k = Some entry ->
  entry.(id) = k.
Proof.
  intros Hreach Hget.
  exact (proj1 (reachable_well_formed _ Hreach k entry Hget)).
Qed.

Lemma reachable_id_is_key_witness : (with_quantity mug 2).(id) = 7.
Proof.
  apply (reachable_id_is_key {| items := {[ 7 := with_quantity mug 2 ]} |} 7).
  - apply (reachable_step {| items := {[ 7 := mug ]} |} (AddToCart refund_mug)).
    + apply (reachable_step initialState (AddToCart mug)); [exact reachable_init|].
      reflexivity.
    + reflexivity.
  - reflexivity.
Defined.

Lemma well_formed_is_reachable state : well_formed state -> reachable state.
Proof.
  destruct state as [m]. unfold well_formed. cbn.
  induction m as [|k entry m Hfresh IH] using map_ind; intros Hwf.
  - exact reachable_init.
  - apply map_Forall_insert in Hwf as [[Hid Hq] Hrest]; [|done].
    specialize (IH Hrest).
    assert (Hadd : reducer {| items := m |} (AddToCart entry)
                   = Normal {| items := <[k := with_quantity entry 1]> m |}).
    { cbn. rewrite addToCart_absent by (cbn; by rewrite Hid). cbn. by rewrite Hid. }
    eapply (repeat_dispatch_reachable (Z.to_nat (entry.(quantity) - 1))
              (IncrementQuantity k)).
    + eapply reachable_step; [exact IH|exact Hadd].
    + erewrite repeat_increment_present; [|cbn; apply lookup_insert_eq|cbn; lia].
      cbn -[Z.pow]. rewrite insert_insert_eq, with_quantity_twice.
      replace (Z.min (1 + Z.of_nat (Z.to_nat (entry.(quantity) - 1))) (2 ^ 53))
        with entry.(quantity) by lia.
      by rewrite with_quantity_same.
Qed.

(** X2. The reachable carts are exactly the well-formed ones: a cart is
    reachable from the empty cart if and only if each of its entries is
    stored under its own id and has a quantity between 1 and 2^53, the
    count at which [+= 1] stops counting. *)
Theorem reachable_iff_well_formed state :
  reachable state <-> well_formed state.
Proof.
  split; [apply reachable_well_formed|apply well_formed_is_reachable].
Qed.

Lemma reachable_iff_well_formed_witness : reachable basket.
Proof.
  apply (proj2 (reachable_iff_well_formed basket)).
  unfold well_formed, basket. cbn -[Z.pow].
  apply map_Forall_insert_2; [cbn; lia|].
  apply map_Forall_insert_2; [cbn; lia|].
  apply map_Forall_empty.
Defined.

(** A count of 2^53 is reached, and it is the largest one. *)
Example saturated_reachable : reachable saturated.
Proof.
  apply well_formed_is_reachable. unfold well_formed, saturated. cbn -[Z.pow].
  apply map_Forall_insert_2; [cbn -[Z.pow]; lia|]. apply map_Forall_empty.
Qed.

(** ** What one action can do to an entry *)

(** X3. One action never rewrites an entry: if [k] is in the cart before
    and after a dispatch, the entry after is the entry before with at
    most its quantity changed.  Id, title, image and price are never
    touched, and on a count of magnitude at most 2^53 the quantity
    moves by at most one unit. *)
Theorem reducer_only_moves_quantity state action k entry :
  state.(items) !! k = Some entry ->
  exists state',
    reducer state action = Normal state'
    /\ forall entry',
         state'.(items) !! k = Some entry' ->
         entry' = with_quantity entry entry'.(quantity)
         /\ (- 2 ^ 53 <= entry.(quantity) <= 2 ^ 53 ->
             entry.(quantity) - 1 <= entry'.(quantity) <= entry.(quantity) + 1).
Proof.
  intros Hget. destruct (reducer_total state action) as [state' Hstep].
  exists state'. split; [done|]. intros entry'.
  rewrite (reducer_lookup _ _ _ _ Hstep).
  case_decide as Hk.
  - rewrite Hk, Hget.
    destruct action as [item|k0|k0]; cbn.
    + intros [= <-]. cbn. split; [done|]. intros Hq.
      rewrite js_add_one_capped by done. lia.
    + intros [= <-]. cbn. split; [done|]. intros Hq.
      rewrite js_add_one_capped by done. lia.
    + destruct (js_sub entry.(quantity) 1 <=? 0); [discriminate|].
      intros [= <-]. cbn. split; [done|]. intros Hq.
      rewrite js_sub_one_floored by done. lia.
  - rewrite Hget. intros [= <-]. rewrite with_quantity_same. split; [done|lia].
Qed.

Lemma reducer_only_moves_quantity_witness :
  exists state',
    reducer basket (AddToCart refund_mug) = Normal state'
    /\ forall entry',
         state'.(items) !! 7 = Some entry' ->
         entry' = with_quantity (with_quantity mug 3) entry'.(quantity)
         /\ (- 2 ^ 53 <= 3 <= 2 ^ 53 -> 3 - 1 <= entry'.(quantity) <= 3 + 1).
Proof.
  apply (reducer_only_moves_quantity basket (AddToCart refund_mug) 7
           (with_quantity mug 3)).
  reflexivity.
Defined.

Lemma dispatch_all_keeps_entry actions :
  forall state k entry,
    Forall (fun action => action <> DecrementQuantity k) actions ->
    state.(items) !! k = Some entry ->
    exists state' entry',
      dispatch_all state actions = Normal state'
      /\ state'.(items) !! k = Some entry'
      /\ entry' = with_quantity entry entry'.(quantity)
      /\ (is_double entry.(quantity) = true ->
          entry.(quantity) <= entry'.(quantity)
          /\ is_double entry'.(quantity) = true).
Proof.
  induction actions as [|action rest IH]; intros state k entry Hno Hget.
  - exists state, entry. cbn. rewrite with_quantity_same.
    repeat split; [done|lia|done].
  - apply Forall_cons in Hno as [Hhead Hrest].
    destruct (reducer_total state action) as [state1 Hstep].
    assert (exists entry1, state1.(items) !! k = Some entry1
              /\ entry1 = with_quantity entry entry1.(quantity)
              /\ (is_double entry.(quantity) = true ->
                  entry.(quantity) <= entry1.(quantity)
                  /\ is_double entry1.(quantity) = true))
      as (entry1 & Hget1 & Hsame1 & Hup1).
    { rewrite (reducer_lookup _ _ _ _ Hstep).
      case_decide as Hk.
      - rewrite Hk, Hget.
        destruct action as [item|k0|k0]; cbn in *.
        + eexists. split; [done|]. cbn. split; [done|]. apply js_add_one_double.
        + eexists. split; [done|]. cbn. split; [done|]. apply js_add_one_double.
        + congruence.
      - exists entry. rewrite with_quantity_same. repeat split; [done|lia|done]. }
    destruct (IH state1 k entry1 Hrest Hget1)
      as (state' & entry' & Hrun & Hget' & Hsame' & Hup').
    exists state', entry'. cbn. rewrite Hstep. cbn.
    split; [done|]. split; [done|]. split.
    + rewrite Hsame', Hsame1. reflexivity.
    + intros Hdbl. destruct (Hup1 Hdbl) as [Hle1 Hdbl1].
      destruct (Hup' Hdbl1) as [Hle' Hdbl']. split; [lia|done].
Qed.

(** X4. An entry leaves the cart only through a decrement of its own id:
    along any run that contains no [decrementQuantity(k)], an entry
    present under [k] at the start is still there at the end, with the
    id, title, image and price it started with and, its quantity being
    a number (a binary64 integer), a quantity that is not smaller. *)
Theorem entry_survives_without_decrement state actions k entry :
  Forall (fun action => action <> DecrementQuantity k) actions ->
  state.(items) !! k = Some entry ->
  exists state' entry',
    dispatch_all state actions = Normal state'
    /\ state'.(items) !! k = Some entry'
    /\ entry' = with_quantity entry entry'.(quantity)
    /\ (is_double entry.(quantity) = true ->
        entry.(quantity) <= entry'.(quantity)).
Proof.
  intros Hno Hget.
  destruct (dispatch_all_keeps_entry actions state k entry Hno Hget)
    as (state' & entry' & Hrun & Hget' & Hsame & Hup).
  exists state', entry'. do 3 (split; [done|]).
  intros Hdbl. by destruct (Hup Hdbl).
Qed.

Lemma entry_survives_without_decrement_witness :
  exists state' entry',
    dispatch_all basket
      [AddToCart refund_mug; DecrementQuantity 1; IncrementQuantity 7; AddToCart refund]
    = Normal state'
    /\ state'.(items) !! 7 = Some entry'
    /\ entry' = with_quantity (with_quantity mug 3) entry'.(quantity)
    /\ 3 <= entry'.(quantity).
Proof.
  destruct (entry_survives_without_decrement basket
              [AddToCart refund_mug; DecrementQuantity 1; IncrementQuantity 7;
               AddToCart refund] 7 (with_quantity mug 3))
    as (state' & entry' & Hrun & Hget & Hsame & Hup).
  - repeat constructor; discriminate.
  - reflexivity.
  - exists state', entry'. do 3 (split; [assumption|]).
    apply Hup. reflexivity.
Defined.

(** ** Undoing an action *)

(** X5. [decrementQuantity] undoes [incrementQuantity] below 2^53: on a
    cart whose entry for [k], if any, has a quantity [q] with
    [1 <= q < 2^53], incrementing [k] and then decrementing it gives
    back the very same state. *)
Theorem decrement_undoes_increment state k :
  (forall entry, state.(items) !! k = Some entry ->
                 1 <= entry.(quantity) < 2 ^ 53) ->
  dispatch_two state (IncrementQuantity k) (DecrementQuantity k) = Normal state.
Proof.
  intros Hpos. unfold dispatch_two. cbn.
  destruct (state.(items) !! k) as [entry|] eqn:Hget.
  - rewrite (incrementQuantity_present _ _ _ Hget). cbn.
    erewrite decrementQuantity_present by (cbn; apply lookup_insert_eq).
    cbn. specialize (Hpos entry eq_refl).
    rewrite js_add_one_exact, js_sub_one_exact by lia.
    destruct (Z.leb_spec (entry.(quantity) + 1 - 1) 0); [lia|].
    rewrite insert_insert_eq, with_quantity_twice.
    replace (entry.(quantity) + 1 - 1) with entry.(quantity) by lia.
    rewrite with_quantity_same, insert_id by done. by destruct state.
  - rewrite (incrementQuantity_absent _ _ Hget). cbn.
    by rewrite (decrementQuantity_absent _ _ Hget).
Qed.

Lemma decrement_undoes_increment_witness :
  dispatch_two basket (IncrementQuantity 7) (DecrementQuantity 7) = Normal basket.
Proof.
  apply (decrement_undoes_increment basket 7).
  intros entry Hget. vm_compute in Hget. injection Hget as <-. cbn. lia.
Defined.

(** At 2^53 the increment is absorbed and the decrement is not. *)
Example decrement_after_absorbed_increment :
  dispatch_two saturated (IncrementQuantity 7) (DecrementQuantity 7)
  = Normal {| items := {[ 7 := with_quantity mug (2 ^ 53 - 1) ]} |}.
Proof. vm_compute. reflexivity. Qed.

(** X6. [decrementQuantity] undoes [addToCart] below 2^53: on a cart
    whose entry for [item.id], if any, has a quantity [q] with
    [1 <= q < 2^53], adding the item and then decrementing its id gives
    back the very same state; a first add leaves no trace of the
    payload. *)
Theorem decrement_undoes_addToCart state item :
  (forall entry, state.(items) !! item.(id) = Some entry ->
                 1 <= entry.(quantity) < 2 ^ 53) ->
  dispatch_two state (AddToCart item) (DecrementQuantity item.(id)) = Normal state.
Proof.
  intros Hpos. unfold dispatch_two. cbn.
  destruct (state.(items) !! item.(id)) as [entry|] eqn:Hget.
  - rewrite (addToCart_present _ _ _ Hget). cbn.
    erewrite decrementQuantity_present by (cbn; apply lookup_insert_eq).
    cbn. specialize (Hpos entry eq_refl).
    rewrite js_add_one_exact, js_sub_one_exact by lia.
    destruct (Z.leb_spec (entry.(quantity) + 1 - 1) 0); [lia|].
    rewrite insert_insert_eq, with_quantity_twice.
    replace (entry.(quantity) + 1 - 1) with entry.(quantity) by lia.
    rewrite with_quantity_same, insert_id by done. by destruct state.
  - rewrite (addToCart_absent _ _ Hget). cbn.
    erewrite decrementQuantity_present by (cbn; apply lookup_insert_eq).
    cbn. rewrite delete_insert_id by done. by destruct state.
Qed.

Lemma decrement_undoes_addToCart_witness :
  dispatch_two basket (AddToCart refund) (DecrementQuantity 3) = Normal basket.
Proof.
  apply (decrement_undoes_addToCart basket refund).
  intros entry Hget. vm_compute in Hget. discriminate.
Defined.

(** X7. [incrementQuantity] undoes [decrementQuantity] only while the
    entry survives: from a quantity between 2 and 2^53, decrementing
    and then incrementing gives back the same state; from quantity 1 or
    less the decrement removes the entry and the increment does not
    bring it back. *)
Theorem increment_after_decrement state k entry :
  state.(items) !! k = Some entry ->
  (2 <= entry.(quantity) <= 2 ^ 53 ->
   dispatch_two state (DecrementQuantity k) (IncrementQuantity k) = Normal state)
  /\ (entry.(quantity) <= 1 ->
      dispatch_two state (DecrementQuantity k) (IncrementQuantity k)
      = Normal {| items := delete k state.(items) |}).
Proof.
  intros Hget. unfold dispatch_two. cbn.
  rewrite (decrementQuantity_present _ _ _ Hget).
  split; intros Hq.
  - rewrite js_sub_one_exact by lia.
    destruct (Z.leb_spec (entry.(quantity) - 1) 0); [lia|]. cbn.
    erewrite incrementQuantity_present by (cbn; apply lookup_insert_eq).
    cbn. rewrite js_add_one_exact by lia.
    rewrite insert_insert_eq, with_quantity_twice.
    replace (entry.(quantity) - 1 + 1) with entry.(quantity) by lia.
    rewrite with_quantity_same, insert_id by done. by destruct state.
  - pose proof (round64_nonpos (entry.(quantity) - 1) ltac:(lia)) as Hneg.
    fold (js_sub entry.(quantity) 1) in Hneg.
    destruct (Z.leb_spec (js_sub entry.(quantity) 1) 0); [|lia]. cbn.
    by rewrite incrementQuantity_absent by (cbn; apply lookup_delete_eq).
Qed.

Lemma increment_after_decrement_witness :
  dispatch_two basket (DecrementQuantity 7) (IncrementQuantity 7) = Normal basket
  /\ dispatch_two basket (DecrementQuantity 1) (IncrementQuantity 1)
     = Normal {| items := delete 1 basket.(items) |}.
Proof.
  split.
  - apply (proj1 (increment_after_decrement basket 7 (with_quantity mug 3) eq_refl)).
    cbn. lia.
  - apply (proj2 (increment_after_decrement basket 1 shirt eq_refl)).
    cbn. lia.
Defined.
(** ** Actions on different ids *)

(** X8. Actions that operate on different ids commute: dispatching them
    in either order gives the same state. *)
Theorem reducer_commute state first second :
  operated_id first <> operated_id second ->
  dispatch_two state first second = dispatch_two state second first.
Proof.
  intros Hne. unfold dispatch_two.
  rewrite (reducer_partial_alter state first), (reducer_partial_alter state second).
  cbn. rewrite !reducer_partial_alter. cbn.
  by rewrite partial_alter_partial_alter_ne.
Qed.

Lemma reducer_commute_witness :
  dispatch_two basket (AddToCart refund) (DecrementQuantity 1)
  = dispatch_two basket (DecrementQuantity 1) (AddToCart refund).
Proof.
  apply (reducer_commute basket (AddToCart refund) (DecrementQuantity 1)).
  cbn. lia.
Defined.

(** X9. The set of ids in the cart moves as the action says and no
    further: [addToCart] adds [item.id] to it and removes nothing,
    [incrementQuantity] leaves it as it is, and [decrementQuantity(k)]
    adds nothing and can only take [k] out. *)
Theorem reducer_dom state action :
  exists state',
    reducer state action = Normal state'
    /\ match action with
       | AddToCart item => dom state'.(items) = {[ item.(id) ]} ∪ dom state.(items)
       | IncrementQuantity _ => dom state'.(items) = dom state.(items)
       | DecrementQuantity k =>
           dom state.(items) ∖ {[ k ]} ⊆ dom state'.(items)
           /\ dom state'.(items) ⊆ dom state.(items)
       end.
Proof.
  destruct action as [item|k|k]; cbn.
  - destruct (state.(items) !! item.(id)) as [entry|] eqn:Hget.
    + rewrite (addToCart_present _ _ _ Hget). eexists. split; [done|]. cbn.
      by rewrite dom_insert_L.
    + rewrite (addToCart_absent _ _ Hget). eexists. split; [done|]. cbn.
      by rewrite dom_insert_L.
  - destruct (state.(items) !! k) as [entry|] eqn:Hget.
    + rewrite (incrementQuantity_present _ _ _ Hget). eexists. split; [done|]. cbn.
      by rewrite dom_insert_lookup_L by eauto.
    + rewrite (incrementQuantity_absent _ _ Hget). eauto.
  - destruct (state.(items) !! k) as [entry|] eqn:Hget.
    + rewrite (decrementQuantity_present _ _ _ Hget). eexists. split; [done|].
      destruct (js_sub entry.(quantity) 1 <=? 0); cbn.
      * rewrite dom_delete_L. split; [done|]. by apply subseteq_difference_l.
      * rewrite dom_insert_lookup_L by eauto.
        split; [|done]. by apply subseteq_difference_l.
    + rewrite (decrementQuantity_absent _ _ Hget). eexists. split; [done|].
      split; [|done]. by apply subseteq_difference_l.
Qed.

(** ** Counting *)

Lemma dispatch_all_app first_part :
  forall state second_part,
    dispatch_all state (first_part ++ second_part)
    = (state' ← dispatch_all state first_part; dispatch_all state' second_part).
Proof.
  induction first_part as [|action rest IH]; intros state second_part; cbn; [done|].
  destruct (reducer state action) as [state1|e]; cbn; [apply IH|done].
Qed.

Lemma dispatch_all_bumps actions :
  forall state k entry,
    Forall (bumps k) actions ->
    state.(items) !! k = Some entry ->
    - 2 ^ 53 <= entry.(quantity) <= 2 ^ 53 ->
    dispatch_all state actions
    = Normal {| items := <[k := with_quantity entry
                                  (Z.min (entry.(quantity) + Z.of_nat (length actions))
                                         (2 ^ 53))]>
                           state.(items) |}.
Proof.
  induction actions as [|action rest IH]; intros state k entry Hall Hget Hq.
  - cbn -[Z.pow]. rewrite Z.add_0_r, Z.min_l, with_quantity_same, insert_id
      by (done || lia).
    by destruct state.
  - apply Forall_cons in Hall as [Hhead Hrest].
    assert (reducer state action
            = Normal {| items := <[k := with_quantity entry (js_add entry.(quantity) 1)]>
                                   state.(items) |}) as Hstep.
    { destruct action as [item|k0|k0]; cbn in Hhead |- *; [| |done]; subst k.
      - by apply addToCart_present.
      - by apply incrementQuantity_present. }
    cbn [dispatch_all]. rewrite Hstep. cbn -[dispatch_all Z.pow].
    rewrite js_add_one_capped by done.
    erewrite IH; [|exact Hrest|cbn; apply lookup_insert_eq|cbn; lia].
    cbn -[Z.of_nat Z.pow]. rewrite insert_insert_eq, with_quantity_twice.
    do 4 f_equal. cbn [length]. lia.
Qed.

Lemma dispatch_all_decrements_absent n :
  forall state k,
    state.(items) !! k = None ->
    dispatch_all state (replicate n (DecrementQuantity k)) = Normal state.
Proof.
  induction n as [|n IH]; intros state k Hget; cbn; [done|].
  rewrite (decrementQuantity_absent _ _ Hget). cbn. by apply IH.
Qed.

Lemma dispatch_all_decrements n :
  forall state k entry,
    state.(items) !! k = Some entry ->
    entry.(quantity) = Z.of_nat (S n) ->
    entry.(quantity) <= 2 ^ 53 ->
    dispatch_all state (replicate (S n) (DecrementQuantity k))
    = Normal {| items := delete k state.(items) |}.
Proof.
  induction n as [|n IH]; intros state k entry Hget Hq Hmax.
  - cbn. rewrite (decrementQuantity_present _ _ _ Hget).
    rewrite js_sub_one_exact by lia.
    destruct (Z.leb_spec (entry.(quantity) - 1) 0); [done|lia].
  - change (replicate (S (S n)) (DecrementQuantity k))
      with (DecrementQuantity k :: replicate (S n) (DecrementQuantity k)).
    cbn [dispatch_all reducer]. rewrite (decrementQuantity_present _ _ _ Hget).
    rewrite js_sub_one_exact by lia.
    destruct (Z.leb_spec (entry.(quantity) - 1) 0); [lia|].
    cbn -[dispatch_all replicate].
    erewrite IH; [|cbn; apply lookup_insert_eq|cbn; lia|cbn; lia].
    cbn. by rewrite delete_insert_eq.
Qed.

(** X10. On an entry that is already in the cart, with a quantity of
    magnitude at most 2^53, every [addToCart] with its id and every
    [incrementQuantity] of its id counts for exactly one until the
    count reaches 2^53, where it stays: after any run made of such
    actions the quantity is the starting quantity plus the length of
    the run, capped at 2^53, and id, title, image and price are still
    those of the entry, whatever the payloads carried. *)
Theorem bumps_add_their_number state actions k entry :
  Forall (bumps k) actions ->
  state.(items) !! k = Some entry ->
  - 2 ^ 53 <= entry.(quantity) <= 2 ^ 53 ->
  dispatch_all state actions
  = Normal {| items := <[k := with_quantity entry
                                (Z.min (entry.(quantity) + Z.of_nat (length actions))
                                       (2 ^ 53))]>
                         state.(items) |}.
Proof. intros Hall Hget Hq. by apply dispatch_all_bumps. Qed.

Lemma bumps_add_their_number_witness :
  dispatch_all basket [AddToCart refund_mug; IncrementQuantity 7; AddToCart mug]
  = Normal {| items := <[7 := with_quantity (with_quantity mug 3)
                                (Z.min (3 + Z.of_nat 3) (2 ^ 53))]>
                         basket.(items) |}.
Proof.
  apply (bumps_add_their_number basket
           [AddToCart refund_mug; IncrementQuantity 7; AddToCart mug] 7
           (with_quantity mug 3)).
  - repeat constructor.
  - reflexivity.
  - cbn. lia.
Defined.

(** X11. First write wins: when [first.id] is not in the cart, an
    [addToCart(first)] followed by any run of adds and increments of
    that id leaves one entry under [first.id], with the title, image and
    price of [first] and a quantity equal to the number of actions
    dispatched, capped at 2^53; the payloads of the later adds leave no
    trace. *)
Theorem first_add_wins state first rest :
  state.(items) !! first.(id) = None ->
  Forall (bumps first.(id)) rest ->
  dispatch_all state (AddToCart first :: rest)
  = Normal {| items := <[first.(id) := with_quantity first
                                         (Z.min (Z.of_nat (S (length rest)))
                                                (2 ^ 53))]>
                         state.(items) |}.
Proof.
  intros Hget Hall. cbn [dispatch_all reducer].
  rewrite (addToCart_absent _ _ Hget). cbn -[dispatch_all Z.of_nat Z.pow].
  erewrite dispatch_all_bumps; [|exact Hall|cbn; apply lookup_insert_eq|cbn; lia].
  cbn -[Z.of_nat Z.pow]. rewrite insert_insert_eq, with_quantity_twice.
  do 4 f_equal. lia.
Qed.

Lemma first_add_wins_witness :
  dispatch_all initialState [AddToCart mug; AddToCart refund_mug; IncrementQuantity 7]
  = Normal {| items := <[7 := with_quantity mug (Z.min (Z.of_nat 3) (2 ^ 53))]>
                         initialState.(items) |}.
Proof.
  apply (first_add_wins initialState mug [AddToCart refund_mug; IncrementQuantity 7]).
  - reflexivity.
  - repeat constructor.
Defined.

(** X12. As many decrements as there were adds and increments bring the
    cart back: when [first.id] is not in the cart, [addToCart(first)],
    then any run of adds and increments of that id, then one
    [decrementQuantity] of that id per action dispatched so far, ends in
    exactly the state it started from. *)
Theorem add_then_decrement_round_trip state first rest :
  state.(items) !! first.(id) = None ->
  Forall (bumps first.(id)) rest ->
  dispatch_all state
    ((AddToCart first :: rest)
     ++ replicate (S (length rest)) (DecrementQuantity first.(id)))
  = Normal state.
Proof.
  intros Hget Hall. rewrite dispatch_all_app.
  cbn [dispatch_all reducer].
  rewrite (addToCart_absent _ _ Hget). cbn -[dispatch_all Z.of_nat Z.pow replicate].
  erewrite dispatch_all_bumps; [|exact Hall|cbn; apply lookup_insert_eq|cbn; lia].
  cbn -[dispatch_all Z.of_nat Z.pow replicate].
  rewrite insert_insert_eq, with_quantity_twice.
  set (count := Z.min (1 + Z.of_nat (length rest)) (2 ^ 53)).
  assert (1 <= count <= 2 ^ 53) as Hcount by (unfold count; lia).
  destruct (Z.to_nat count) as [|reached] eqn:Hreached; [lia|].
  replace (S (length rest)) with (S reached + (S (length rest) - S reached))%nat
    by (unfold count in *; lia).
  rewrite replicate_add, dispatch_all_app.
  erewrite dispatch_all_decrements; [|cbn; apply lookup_insert_eq|cbn; lia|cbn; lia].
  cbn -[dispatch_all replicate].
  rewrite delete_insert_eq, delete_id by done.
  rewrite dispatch_all_decrements_absent by done. by destruct state.
Qed.

Lemma add_then_decrement_round_trip_witness :
  dispatch_all basket
    ((AddToCart refund :: [IncrementQuantity 3; AddToCart refund])
     ++ replicate 3 (DecrementQuantity 3))
  = Normal basket.
Proof.
  apply (add_then_decrement_round_trip basket refund
           [IncrementQuantity 3; AddToCart refund]).
  - reflexivity.
  - repeat constructor.
Defined.

(** * The screen *)

Lemma dispatch_total app action :
  exists cart',
    reducer app.(cart) action = Normal cart'
    /\ dispatch app action
       = Normal {| products := app.(products);
                   selectedProduct := app.(selectedProduct);
                   modalVisible := app.(modalVisible); cart := cart' |}.
Proof.
  destruct (reducer_total app.(cart) action) as [cart' Hstep].
  exists cart'. split; [done|]. unfold dispatch. by rewrite Hstep.
Qed.

Lemma dispatch_inv app action app' :
  dispatch app action = Normal app' ->
  reducer app.(cart) action = Normal app'.(cart)
  /\ app'.(products) = app.(products)
  /\ app'.(selectedProduct) = app.(selectedProduct)
  /\ app'.(modalVisible) = app.(modalVisible).
Proof.
  destruct (dispatch_total app action) as (cart' & Hstep & ->).
  intros [= <-]. by cbn.
Qed.

Lemma addItemToCart_inv app product app' :
  addItemToCart app product = Normal app' ->
  reducer app.(cart) (AddToCart (cartItem_of_product product)) = Normal app'.(cart)
  /\ app'.(products) = app.(products)
  /\ app'.(selectedProduct) = None
  /\ app'.(modalVisible) = false.
Proof.
  unfold addItemToCart.
  destruct (dispatch_total app (AddToCart (cartItem_of_product product)))
    as (cart' & Hstep & ->).
  cbn. intros [= <-]. by cbn.
Qed.

Lemma ui_step_cart app app' :
  ui_step app app' ->
  app'.(cart) = app.(cart)
  \/ exists action, reducer app.(cart) action = Normal app'.(cart).
Proof.
  destruct 1 as [app item _|app item app' _ _ Hd|app item app' _ _ Hd
                |app product app' _ _ Hadd|app product _ _|app data];
    try (by left).
  - right. eexists. exact (proj1 (dispatch_inv _ _ _ Hd)).
  - right. eexists. exact (proj1 (dispatch_inv _ _ _ Hd)).
  - right. eexists. exact (proj1 (addItemToCart_inv _ _ _ Hadd)).
Qed.

Lemma ui_reachable_cart app : ui_reachable app -> reachable app.(cart).
Proof.
  induction 1 as [|app app' _ IH Hstep].
  - exact reachable_init.
  - destruct (ui_step_cart _ _ Hstep) as [->|[action Hred]]; [done|].
    by eapply reachable_step.
Qed.

(** X13. On every screen of a session the modal flag and the selection
    go together: [modalVisible] is true exactly when [selectedProduct]
    is not null, so the modal is mounted exactly when it is shown. *)
Theorem modal_visible_iff_selected app :
  ui_reachable app ->
  app.(modalVisible) = true <-> is_Some app.(selectedProduct).
Proof.
  induction 1 as [|app app' _ IH Hstep].
  - cbn. split; [discriminate|]. by intros [? [=]].
  - destruct Hstep as [app item _|app item app' _ _ Hd|app item app' _ _ Hd
                      |app product app' _ _ Hadd|app product _ _|app data]; cbn.
    + split; eauto.
    + destruct (dispatch_inv _ _ _ Hd) as (_ & _ & -> & ->). exact IH.
    + destruct (dispatch_inv _ _ _ Hd) as (_ & _ & -> & ->). exact IH.
    + destruct (addItemToCart_inv _ _ _ Hadd) as (_ & _ & -> & ->).
      split; [discriminate|]. by intros [? [=]].
    + split; [discriminate|]. by intros [? [=]].
    + exact IH.
Qed.

Lemma modal_visible_iff_selected_witness :
  mug_selected.(modalVisible) = true <-> is_Some mug_selected.(selectedProduct).
Proof.
  apply (modal_visible_iff_selected mug_selected).
  apply (ui_next (setProducts initialApp [mug_product])).
  - apply (ui_next initialApp); [exact ui_initial|].
    exact (catalog_fetched initialApp [mug_product]).
  - apply (press_row (setProducts initialApp [mug_product]) mug_product).
    cbn. apply list_elem_of_here.
Defined.

(** X14. Whatever the session did, a row that renders its quantity
    controls ([cart[item.id]] truthy) displays a quantity of at least 1,
    read from an entry whose id is the row's product id. *)
Theorem displayed_quantity_positive app item :
  ui_reachable app ->
  truthy (app.(cart).(items) !! item.(Product.id)) = true ->
  exists entry,
    app.(cart).(items) !! item.(Product.id) = Some entry
    /\ entry.(id) = item.(Product.id)
    /\ 1 <= entry.(quantity).
Proof.
  intros Hreach%ui_reachable_cart%reachable_well_formed Hshown.
  destruct (app.(cart).(items) !! item.(Product.id)) as [entry|] eqn:Hget;
    [|discriminate].
  exists entry. split; [done|].
  destruct (Hreach _ _ Hget) as [Hid [Hq _]]. done.
Qed.

Lemma displayed_quantity_positive_witness :
  exists entry,
    mug_bought.(cart).(items) !! 7 = Some entry
    /\ entry.(id) = 7
    /\ 1 <= entry.(quantity).
Proof.
  apply (displayed_quantity_positive mug_bought mug_product).
  - apply (ui_next mug_selected).
    + apply (ui_next (setProducts initialApp [mug_product])).
      * apply (ui_next initialApp); [exact ui_initial|].
        exact (catalog_fetched initialApp [mug_product]).
      * apply (press_row (setProducts initialApp [mug_product]) mug_product).
        cbn. apply list_elem_of_here.
    + apply (press_add_to_cart mug_selected mug_product); reflexivity.
  - reflexivity.
Defined.

(** X15. [addItemToCart] always succeeds, closes the modal and clears
    the selection, keeps the catalog, and leaves the product in the
    cart: a product that was not there gets an entry with quantity 1 and
    its own id, title, image and price; one that was there keeps its
    entry, with a quantity raised by 1 when the old quantity [q]
    satisfies [-2^53 <= q < 2^53].  No other entry changes. *)
Theorem addItemToCart_closes_and_stores app product :
  exists app' entry',
    addItemToCart app product = Normal app'
    /\ app'.(selectedProduct) = None
    /\ app'.(modalVisible) = false
    /\ app'.(products) = app.(products)
    /\ app'.(cart).(items) !! product.(Product.id) = Some entry'
    /\ match app.(cart).(items) !! product.(Product.id) with
       | Some entry =>
           entry' = with_quantity entry entry'.(quantity)
           /\ (- 2 ^ 53 <= entry.(quantity) < 2 ^ 53 ->
               entry'.(quantity) = entry.(quantity) + 1)
       | None =>
           entry' = {| id := product.(Product.id); title := product.(Product.title);
                       image := product.(Product.image);
                       price := product.(Product.price); quantity := 1 |}
       end
    /\ forall k, k <> product.(Product.id) ->
                 app'.(cart).(items) !! k = app.(cart).(items) !! k.
Proof.
  unfold addItemToCart.
  destruct (dispatch_total app (AddToCart (cartItem_of_product product)))
    as (cart' & Hstep & ->).
  pose proof (reducer_lookup _ _ _ product.(Product.id) Hstep) as Hget.
  cbn in Hget. rewrite decide_True in Hget by done.
  destruct (app.(cart).(items) !! product.(Product.id)) as [entry|] eqn:Hold;
    (eexists; eexists; split; [reflexivity|]; cbn;
     do 3 (split; [reflexivity|]); split; [exact Hget|]; split;
     [|intros k Hk; by apply (reducer_step_frame _ _ _ _ Hstep)]).
  - cbn. split; [done|]. apply js_add_one_exact.
  - done.
Qed.

Lemma addItemToCart_closes_and_stores_witness :
  exists app',
    addItemToCart mug_selected mug_product = Normal app'
    /\ app'.(selectedProduct) = None
    /\ app'.(modalVisible) = false
    /\ app'.(products) = [mug_product]
    /\ app'.(cart).(items) !! 7 = Some mug
    /\ app'.(cart).(items) !! 1 = None.
Proof.
  destruct (addItemToCart_closes_and_stores mug_selected mug_product)
    as (app' & entry' & Hrun & Hsel & Hvis & Hcat & Hget & Hentry & Hframe).
  exists app'. do 4 (split; [assumption|]).
  split; [|apply Hframe; cbn; lia].
  transitivity (Some entry'); [exact Hget|]. f_equal. exact Hentry.
Defined.
